(** * PayTechUZ: the Click gateway client

    A shallow embedding of [src/gateways/click/client.py] (class
    [ClickGateway]: [create_payment], [check_payment], [cancel_payment])
    and the properties of it that the specification states.

    Conventions of the embedding:
    - a Python [str] is a [string]; its characters are the bytes of the
      UTF-8 encoding, on which splitting at ["_"] and concatenation act as
      they do on code points;
    - a Python value of unknown type ([Any], a [**kwargs] entry, a JSON
      field) is a [pyval];
    - a [dict] with [str] keys is a [gmap string pyval];
    - a method is a computation in the monad [M]: it reads and writes a
      store (the gateway object, the remote service, the log of
      merchant-API calls) and either returns a value or raises. *)

From Stdlib Require Import ZArith String Ascii List.
From Stdlib Require Import Floats.SpecFloat.
From stdpp Require Import base option list strings gmap pretty.

(* ================================================================== *)
(** * Python values *)
(* ================================================================== *)

Module Py.

(** The values that reach the client: [None], [bool], [int], [float],
    [str], and the containers of a decoded JSON document. *)
#[warnings="-register-all"]
Inductive pyval : Type :=
  | PNone
  | PBool (b : bool)
  | PInt (z : Z)
  | PFloat (f : spec_float)
  | PStr (s : string)
  | PList (xs : list pyval)
  | PDict (d : gmap string pyval).

(** [bool(v)]: the truth value an [if v:] tests. *)
Definition truthy (v : pyval) : bool :=
  match v with
  | PNone => false
  | PBool b => b
  | PInt z => negb (z =? 0)%Z
  | PFloat (S754_zero _) => false
  | PFloat _ => true
  | PStr EmptyString => false
  | PStr _ => true
  | PList [] => false
  | PList _ => true
  | PDict d => negb (size d =? 0)%nat
  end.

(** [hash(v)] succeeds: lists and dicts are unhashable. *)
Definition hashable (v : pyval) : bool :=
  match v with
  | PList _ | PDict _ => false
  | _ => true
  end.

(** The name [type(v).__name__] of a value's type. *)
Definition type_name (v : pyval) : string :=
  match v with
  | PNone => "NoneType"
  | PBool _ => "bool"
  | PInt _ => "int"
  | PFloat _ => "float"
  | PStr _ => "str"
  | PList _ => "list"
  | PDict _ => "dict"
  end.

(** Exceptions, by class, with the message they carry. [Raised] stands
    for any exception of another class (what the merchant API raises). *)
Inductive exn : Type :=
  | ValueError (msg : string)
  | TypeError (msg : string)
  | IndexError (msg : string)
  | Raised (cls msg : string).

(** The outcome of a call: a returned value or a raised exception. *)
Inductive outcome (A : Type) : Type :=
  | Return (a : A)
  | Raise (e : exn).
Arguments Return {A} a.
Arguments Raise {A} e.

(** [d.get(key)] on a [str]-keyed dict with a [str] key: [None] when the
    key is absent. *)
Definition dict_get (d : gmap string pyval) (key : string) : pyval :=
  default PNone (d !! key).

(** [d.get(key, dflt)] on a [str]-keyed dict with a key of any type. The
    key is hashed first, so a list or a dict raises [TypeError] (with the
    message of CPython up to 3.13); a hashable key that is not a [str]
    equals no [str] key. *)
Definition dict_get_any (d : gmap string pyval) (key dflt : pyval)
  : outcome pyval :=
  match key with
  | PStr k => Return (default dflt (d !! k))
  | PList _ | PDict _ =>
      Raise (TypeError ("unhashable type: '" +:+ type_name key +:+ "'"))
  | _ => Return dflt
  end.

(** [s.split(sep)] for a one-character separator: every occurrence of
    [sep] ends a segment; a string with [n] separators has [n+1]
    segments, some possibly empty. *)
Fixpoint split (sep : ascii) (s : string) : list string :=
  match s with
  | EmptyString => [EmptyString]
  | String c rest =>
      if Ascii.eqb c sep then EmptyString :: split sep rest
      else match split sep rest with
           | seg :: segs => String c seg :: segs
           | [] => [String c EmptyString]
           end
  end.

(** [sep.join(segs)]. *)
Fixpoint join (sep : string) (segs : list string) : string :=
  match segs with
  | [] => ""
  | [seg] => seg
  | seg :: segs' => seg +:+ sep +:+ join sep segs'
  end.

(** [c in s] for a character. *)
Fixpoint has_char (c : ascii) (s : string) : bool :=
  match s with
  | EmptyString => false
  | String c' rest => Ascii.eqb c' c || has_char c rest
  end.

(** [hay.startswith(needle)]. *)
Fixpoint startswith (hay needle : string) {struct needle} : bool :=
  match needle, hay with
  | EmptyString, _ => true
  | String _ _, EmptyString => false
  | String a needle', String b hay' => Ascii.eqb a b && startswith hay' needle'
  end.

(** [needle in hay]. *)
Fixpoint contains (hay needle : string) : bool :=
  startswith hay needle ||
  match hay with
  | EmptyString => false
  | String _ hay' => contains hay' needle
  end.

(** [hay.endswith(needle)]. *)
Fixpoint endswith (hay needle : string) : bool :=
  String.eqb hay needle ||
  match hay with
  | EmptyString => false
  | String _ hay' => endswith hay' needle
  end.

(** [s.partition(c)] for a character: the text before the first [c] and,
    when there is one, the text after it. *)
Fixpoint partition (c : ascii) (s : string) : string * option string :=
  match s with
  | EmptyString => (EmptyString, None)
  | String c' rest =>
      if Ascii.eqb c' c then (EmptyString, Some rest)
      else let '(before, after) := partition c rest in (String c' before, after)
  end.

End Py.
Export Py.

(* ================================================================== *)
(** * The store and the monad of methods *)
(* ================================================================== *)

Module Click.
Section Gateway.

(** The state of the remote Click service, as far as the merchant API
    observes and changes it. *)
Context {W : Type}.

(** [paytechuz.core.constants.ClickNetworks]: the two base URLs. *)
Variables TEST_NET PROD_NET : string.

(** [str(v)] for the values whose rendering is not modelled here (floats
    and containers). *)
Variable repr_other : pyval -> string.

(** [paytechuz.core.http.HttpClient]: only its configuration. *)
Record HttpClient : Type := { base_url : string }.

(** [paytechuz.gateways.click.merchant.ClickMerchantApi]: its two
    operations, as transitions of the remote service. Each returns the
    decoded payload or raises. *)
Record ClickMerchantApi : Type := {
  api_check_payment : string -> W -> outcome (gmap string pyval) * W;
  api_cancel_payment :
    string -> option string -> W -> outcome (gmap string pyval) * W
}.

(** The constructor of [ClickMerchantApi], which is not part of this file. *)
Variable ClickMerchantApi_new :
  HttpClient -> string -> option string -> option string -> ClickMerchantApi.

(** The attributes of a [ClickGateway] object: those [__init__] sets, and
    the [is_test_mode] it hands to the base class. *)
Record ClickGateway : Type := {
  is_test_mode : bool;
  service_id : string;
  merchant_id : string;
  merchant_user_id : option string;
  secret_key : option string;
  http_client : HttpClient;
  merchant_api : ClickMerchantApi
}.

(** [ClickGateway.__init__]. *)
Definition ClickGateway_init (service_id merchant_id : string)
    (merchant_user_id secret_key : option string) (is_test_mode : bool)
  : ClickGateway :=
  let url := if is_test_mode then TEST_NET else PROD_NET in
  let http_client := {| base_url := url |} in
  {| is_test_mode := is_test_mode;
     service_id := service_id;
     merchant_id := merchant_id;
     merchant_user_id := merchant_user_id;
     secret_key := secret_key;
     http_client := http_client;
     merchant_api :=
       ClickMerchantApi_new http_client service_id merchant_user_id secret_key |}.

(** A request sent through the merchant API. *)
Inductive api_call : Type :=
  | CheckPayment (account_id : string)
  | CancelPayment (account_id : string) (reason : option string).

(** The store a method runs in: the gateway object it is called on, the
    remote service, and the merchant-API requests made so far. *)
Record store : Type := {
  self : ClickGateway;
  remote : W;
  calls : list api_call
}.

(** A method body: from a store to an outcome and the store it leaves. *)
Definition M (A : Type) : Type := store -> outcome A * store.

Definition ret {A} (a : A) : M A := fun st => (Return a, st).

Definition raise {A} (e : exn) : M A := fun st => (Raise e, st).

Definition bind {A B} (m : M A) (k : A -> M B) : M B :=
  fun st =>
    match m st with
    | (Return a, st') => k a st'
    | (Raise e, st') => (Raise e, st')
    end.

Notation "x <- m ;; k" := (bind m (fun x => k))
  (at level 20, m at level 99, k at level 200, only parsing).

(** Reads an attribute of [self]. *)
Definition attr {A} (field : ClickGateway -> A) : M A :=
  fun st => (Return (field (self st)), st).

(** Lifts an outcome computed without the store. *)
Definition lift {A} (o : outcome A) : M A := fun st => (o, st).

(** [l[i]]: raises [IndexError] out of range. *)
Definition index (l : list string) (i : nat) : M string :=
  match l !! i with
  | Some x => ret x
  | None => raise (IndexError "list index out of range")
  end.

(** [self.merchant_api.check_payment(account_id)]: one request to the
    remote service, logged. *)
Definition merchant_check_payment (account_id : string)
  : M (gmap string pyval) :=
  fun st =>
    let '(r, w) := api_check_payment (merchant_api (self st)) account_id (remote st) in
    (r, {| self := self st; remote := w;
           calls := calls st ++ [CheckPayment account_id] |}).

(** [self.merchant_api.cancel_payment(account_id, reason)]. *)
Definition merchant_cancel_payment (account_id : string) (reason : option string)
  : M (gmap string pyval) :=
  fun st =>
    let '(r, w) :=
      api_cancel_payment (merchant_api (self st)) account_id reason (remote st) in
    (r, {| self := self st; remote := w;
           calls := calls st ++ [CancelPayment account_id reason] |}).

(** What the decorator makes of an exception; left open. *)
Variable translate : exn -> exn.

(** Modelled from the spec: [paytechuz.core.utils.handle_exceptions], the
    decorator of the three methods, is not part of this file. The
    specification describes it as the single error-translation wrapper
    through which the client methods propagate exceptions to the caller: a
    returned value passes through, a raised exception reaches the caller
    as its translation. *)
Definition handle_exceptions {A} (f : M A) : M A :=
  fun st =>
    match f st with
    | (Return a, st') => (Return a, st')
    | (Raise e, st') => (Raise (translate e), st')
    end.

(* ================================================================== *)
(** * ClickGateway *)
(* ================================================================== *)

(** The f-string field [{v}]: [format(v, "")], which is [str(v)]. An
    [int] is written in decimal, whatever its size. *)
Definition fmt (v : pyval) : string :=
  match v with
  | PNone => "None"
  | PBool true => "True"
  | PBool false => "False"
  | PInt z => pretty z
  | PStr s => s
  | _ => repr_other v
  end.

(** [ClickGateway.create_payment(self, id, amount, **kwargs)]. *)
Definition create_payment_body (id amount : pyval) (kwargs : gmap string pyval)
  : M string :=
  let description :=
    default (PStr ("Payment for account " +:+ fmt id)) (kwargs !! "description") in
  let return_url := dict_get kwargs "return_url" in
  let callback_url := dict_get kwargs "callback_url" in
  let payment_url := "https://my.click.uz/services/pay" in
  self_service_id <- attr service_id ;;
  let payment_url := payment_url +:+ "?service_id=" +:+ self_service_id in
  self_merchant_id <- attr merchant_id ;;
  let payment_url := payment_url +:+ "&merchant_id=" +:+ self_merchant_id in
  let payment_url := payment_url +:+ "&amount=" +:+ fmt amount in
  let payment_url := payment_url +:+ "&transaction_param=" +:+ fmt id in
  let payment_url :=
    if truthy return_url
    then payment_url +:+ "&return_url=" +:+ fmt return_url
    else payment_url in
  let payment_url :=
    if truthy callback_url
    then payment_url +:+ "&callback_url=" +:+ fmt callback_url
    else payment_url in
  let payment_url :=
    if truthy description
    then payment_url +:+ "&merchant_user_id=" +:+ fmt description
    else payment_url in
  ret payment_url.

Definition create_payment (id amount : pyval) (kwargs : gmap string pyval)
  : M string :=
  handle_exceptions (create_payment_body id amount kwargs).

(** The test both methods make on the segments of a transaction id:
    [len(parts) < 3 or parts[0] != 'click'], the right operand evaluated
    only when the left one is false. *)
Definition bad_format (parts : list string) : M bool :=
  if (length parts <? 3)%nat then ret true
  else first <- index parts 0 ;; ret (negb (String.eqb first "click")).

(** The lookup table of [check_payment]. *)
Definition status_mapping : gmap string pyval :=
  {[ "success" := PStr "paid";
     "processing" := PStr "waiting";
     "failed" := PStr "failed";
     "cancelled" := PStr "cancelled" ]}.

(** [ClickGateway.check_payment(self, transaction_id)]. *)
Definition check_payment_body (transaction_id : string)
  : M (gmap string pyval) :=
  let parts := split "_" transaction_id in
  bad <- bad_format parts ;;
  if bad then
    raise (ValueError ("Invalid transaction ID format: " +:+ transaction_id))
  else
    account_id <- index parts 1 ;;
    payment_data <- merchant_check_payment account_id ;;
    let status := dict_get payment_data "status" in
    mapped_status <- lift (dict_get_any status_mapping status (PStr "unknown")) ;;
    ret ({[ "transaction_id" := PStr transaction_id;
            "status" := mapped_status;
            "amount" := dict_get payment_data "amount";
            "paid_at" := dict_get payment_data "paid_at";
            "created_at" := dict_get payment_data "created_at";
            "raw_response" := PDict payment_data ]} : gmap string pyval).

Definition check_payment (transaction_id : string) : M (gmap string pyval) :=
  handle_exceptions (check_payment_body transaction_id).

(** [ClickGateway.cancel_payment(self, transaction_id, reason=None)]. *)
Definition cancel_payment_body (transaction_id : string) (reason : option string)
  : M (gmap string pyval) :=
  let parts := split "_" transaction_id in
  bad <- bad_format parts ;;
  if bad then
    raise (ValueError ("Invalid transaction ID format: " +:+ transaction_id))
  else
    account_id <- index parts 1 ;;
    cancel_data <- merchant_cancel_payment account_id reason ;;
    ret ({[ "transaction_id" := PStr transaction_id;
            "status" := PStr "cancelled";
            "cancelled_at" := dict_get cancel_data "cancelled_at";
            "raw_response" := PDict cancel_data ]} : gmap string pyval).

Definition cancel_payment (transaction_id : string) (reason : option string)
  : M (gmap string pyval) :=
  handle_exceptions (cancel_payment_body transaction_id reason).

(* ================================================================== *)
(** * The vocabulary of the specification *)
(* ================================================================== *)

(** The transaction id format [click_<account_id>_<amount>]: at least
    three underscore-delimited segments, the first equal to ["click"]. *)
Definition well_formed (transaction_id : string) : bool :=
  let segments := split "_" transaction_id in
  (3 <=? length segments)%nat &&
  match segments !! 0%nat with
  | Some first => String.eqb first "click"
  | None => false
  end.

(** The second underscore-delimited segment of a transaction id. *)
Definition account_id_of (transaction_id : string) : string :=
  default "" (split "_" transaction_id !! 1%nat).

(** The error both methods raise on a malformed transaction id. *)
Definition InvalidTransactionIdError (transaction_id : string) : exn :=
  ValueError ("Invalid transaction ID format: " +:+ transaction_id).

(** The canonical status of a native one: the fixed table of the
    specification with its default arm. *)
Definition canonical_status (native : pyval) : string :=
  match native with
  | PStr s =>
      if String.eqb s "success" then "paid"
      else if String.eqb s "processing" then "waiting"
      else if String.eqb s "failed" then "failed"
      else if String.eqb s "cancelled" then "cancelled"
      else "unknown"
  | _ => "unknown"
  end.

(** The native statuses the table maps. *)
Definition native_statuses : list string :=
  ["success"; "processing"; "failed"; "cancelled"].

(** The store after one merchant-API request left the remote service in
    state [w]. *)
Definition after_call (st : store) (w : W) (c : api_call) : store :=
  {| self := self st; remote := w; calls := calls st ++ [c] |}.

(** The Click payment URL of the specification:
    [base?name=value&name=value...] over a list of query parameters. *)
Definition click_base_url : string := "https://my.click.uz/services/pay".

Definition render_param (p : string * string) : string :=
  fst p +:+ "=" +:+ snd p.

Definition click_url (params : list (string * string)) : string :=
  click_base_url +:+ "?" +:+ join "&" (render_param <$> params).



(** An optional query parameter: present when its value is truthy. *)
Definition optional_param (name : string) (v : pyval) : list (string * string) :=
  if truthy v then [(name, fmt v)] else [].

(** The description [create_payment] works with: the [description]
    keyword when the caller passes one, else the default text. *)
Definition effective_description (id : pyval) (kwargs : gmap string pyval)
  : pyval :=
  default (PStr ("Payment for account " +:+ fmt id)) (kwargs !! "description").

(** The query parameters of the specification's template that do not
    depend on the description, in the template's order. *)
Definition leading_params (g : ClickGateway) (id amount : pyval)
    (kwargs : gmap string pyval) : list (string * string) :=
  [("service_id", service_id g);
   ("merchant_id", merchant_id g);
   ("amount", fmt amount);
   ("transaction_param", fmt id)]
  ++ optional_param "return_url" (dict_get kwargs "return_url")
  ++ optional_param "callback_url" (dict_get kwargs "callback_url").

(** All query parameters of the template: the description comes last, as
    [merchant_user_id]. *)
Definition click_params (g : ClickGateway) (id amount : pyval)
    (kwargs : gmap string pyval) : list (string * string) :=
  leading_params g id amount kwargs
  ++ optional_param "merchant_user_id" (effective_description id kwargs).

(** Two outcomes that differ at most in the echoed ['transaction_id']. *)
Definition same_but_transaction_id (o1 o2 : outcome (gmap string pyval)) : Prop :=
  match o1, o2 with
  | Return r1, Return r2 => delete "transaction_id" r1 = delete "transaction_id" r2
  | Raise e1, Raise e2 => e1 = e2
  | _, _ => False
  end.

End Gateway.
End Click.
Export Click.

(** ** A concrete gateway, for the examples *)

Module Demo.

(** A remote service that counts the requests it has served. It knows
    three accounts: ["42"] is paid, ["7"] has a status outside the table,
    ["8"] has no status at all. *)
Definition demo_payment : gmap string pyval :=
  {[ "status" := PStr "success"; "amount" := PInt 150000;
     "paid_at" := PStr "2024-01-01"; "created_at" := PStr "2023-12-31" ]}.

Definition demo_cancellation : gmap string pyval :=
  {[ "cancelled_at" := PStr "2024-01-02" ]}.

Definition demo_api : @ClickMerchantApi nat :=
  {| api_check_payment := λ account_id n,
       if String.eqb account_id "42" then (Return demo_payment, S n)
       else if String.eqb account_id "7"
       then (Return {[ "status" := PStr "refunded" ]}, S n)
       else if String.eqb account_id "8" then (Return ∅, S n)
       else (Raise (Raised "NotFoundError" account_id), S n);
     api_cancel_payment := λ account_id reason n,
       if String.eqb account_id "42" then (Return demo_cancellation, S n)
       else (Raise (Raised "NotFoundError" account_id), S n) |}.

Definition demo_gateway : ClickGateway :=
  ClickGateway_init "https://test.invalid" "https://prod.invalid"
    (λ _ _ _ _, demo_api) "S" "M" None None false.

Definition demo_store : store :=
  {| self := demo_gateway; remote := 0%nat; calls := [] |}.

(** A rendering of floats and containers, and a translation of
    exceptions, for the examples. *)
Definition demo_repr (v : pyval) : string := "<" +:+ type_name v +:+ ">".
Definition demo_translate (e : exn) : exn :=
  match e with
  | ValueError msg => ValueError msg
  | TypeError msg => Raised "InternalServiceError" msg
  | IndexError msg => Raised "InternalServiceError" msg
  | Raised cls msg => Raised cls msg
  end.

End Demo.

(** ** A merchant API with unusual payloads, for the examples *)

Module DemoOdd.

(** A remote service whose status field is a list, and which refuses
    every cancellation. *)
Definition odd_payment : gmap string pyval :=
  {[ "status" := PList [PStr "success"]; "amount" := PInt 1 ]}.

Definition odd_api : @ClickMerchantApi nat :=
  {| api_check_payment := λ account_id n, (Return odd_payment, S n);
     api_cancel_payment := λ account_id reason n,
       (Raise (Raised "InvalidStateError" account_id), S n) |}.

Definition odd_store : store :=
  {| self := ClickGateway_init "https://test.invalid" "https://prod.invalid"
               (λ _ _ _ _, odd_api) "S" "M" (Some "U") (Some "K") true;
     remote := 0%nat; calls := [] |}.

(** The translation of a decorator that lets through the exceptions of
    the library's own classes and wraps every other one, the built-in
    classes included, into an [InternalServiceError] with the same
    message. *)
Definition wrapping_translate (e : exn) : exn :=
  match e with
  | ValueError msg | TypeError msg | IndexError msg =>
      Raised "InternalServiceError" msg
  | Raised cls msg => Raised cls msg
  end.

End DemoOdd.

(* ================================================================== *)
(** * Facts about strings and [split] *)
(* ================================================================== *)

Module PyFacts.

(** [split] on the inputs of the specification's examples. *)
Example split_well_formed :
  split "_" "click_42_150000" = ["click"; "42"; "150000"].
Proof. reflexivity. Qed.

Example split_two_segments : split "_" "click_123" = ["click"; "123"].
Proof. reflexivity. Qed.

Example split_empty_segments : split "_" "click__" = ["click"; ""; ""].
Proof. reflexivity. Qed.

Example split_no_separator : split "_" "bogus" = ["bogus"].
Proof. reflexivity. Qed.

Lemma app_nil_l (s : string) : "" +:+ s = s.
Proof. reflexivity. Qed.

Lemma app_cons (c : ascii) (s t : string) :
  String c s +:+ t = String c (s +:+ t).
Proof. reflexivity. Qed.

Lemma app_nil_r (s : string) : s +:+ "" = s.
Proof. induction s as [|c s IH]; [reflexivity|]. by rewrite app_cons, IH. Qed.

Lemma app_assoc (s t u : string) : (s +:+ t) +:+ u = s +:+ (t +:+ u).
Proof.
  induction s as [|c s IH]; [reflexivity|]. by rewrite !app_cons, IH.
Qed.

Lemma startswith_refl_app (n r : string) : startswith (n +:+ r) n = true.
Proof.
  induction n as [|c n IH]; [reflexivity|].
  rewrite app_cons. simpl. by rewrite Ascii.eqb_refl, IH.
Qed.

Lemma startswith_spec (hay needle : string) :
  startswith hay needle = true ↔ ∃ r, hay = needle +:+ r.
Proof.
  split.
  - revert hay. induction needle as [|a n IH]; intros hay H.
    + by exists hay.
    + destruct hay as [|b hay]; [discriminate|]. simpl in H.
      apply andb_true_iff in H as [Hab Hrest].
      apply Ascii.eqb_eq in Hab as ->. destruct (IH _ Hrest) as [r ->].
      by exists r.
  - intros [r ->]. apply startswith_refl_app.
Qed.

Lemma contains_app (pre needle post : string) :
  contains (pre +:+ needle +:+ post) needle = true.
Proof.
  induction pre as [|c pre IH].
  - rewrite app_nil_l.
    destruct (needle +:+ post) eqn:E; simpl;
      rewrite <- ?E, startswith_refl_app; reflexivity.
  - rewrite app_cons. simpl. rewrite IH. apply orb_true_r.
Qed.

Lemma contains_spec (hay needle : string) :
  contains hay needle = true ↔ ∃ pre post, hay = pre +:+ needle +:+ post.
Proof.
  split.
  - induction hay as [|c hay IH]; simpl; intros H.
    + apply orb_true_iff in H as [H|H]; [|discriminate].
      apply startswith_spec in H as [r ->]. by exists "", r.
    + apply orb_true_iff in H as [H|H].
      * apply startswith_spec in H as [r ->]. by exists "", r.
      * destruct (IH H) as (pre & post & ->). by exists (String c pre), post.
  - intros (pre & post & ->). apply contains_app.
Qed.

Lemma endswith_app (pre needle : string) : endswith (pre +:+ needle) needle = true.
Proof.
  induction pre as [|c pre IH].
  - rewrite app_nil_l. destruct needle; cbn [endswith]; by rewrite String.eqb_refl.
  - rewrite app_cons. cbn [endswith]. rewrite IH. apply orb_true_r.
Qed.

Lemma endswith_spec (hay needle : string) :
  endswith hay needle = true ↔ ∃ pre, hay = pre +:+ needle.
Proof.
  split.
  - induction hay as [|c hay IH]; cbn [endswith]; intros H.
    + apply orb_true_iff in H as [H|H]; [|discriminate].
      apply String.eqb_eq in H as <-. by exists "".
    + apply orb_true_iff in H as [H|H].
      * apply String.eqb_eq in H as <-. by exists "".
      * destruct (IH H) as [pre ->]. by exists (String c pre).
  - intros [pre ->]. apply endswith_app.
Qed.

(** ** [split] is the inverse of [join], with separator-free segments *)

Lemma split_cons_inv (sep : ascii) (s : string) :
  ∃ seg segs, split sep s = seg :: segs.
Proof.
  destruct s as [|c s]; simpl; [by eexists _, _|].
  destruct (Ascii.eqb c sep); [by eexists _, _|].
  destruct (split sep s); by eexists _, _.
Qed.

Lemma join_cons (sep seg : string) (segs : list string) :
  segs ≠ [] → join sep (seg :: segs) = seg +:+ sep +:+ join sep segs.
Proof. by destruct segs. Qed.

Lemma join_split (sep : ascii) (s : string) :
  join (String sep "") (split sep s) = s.
Proof.
  induction s as [|c s IH]; [reflexivity|]. simpl.
  destruct (split_cons_inv sep s) as (seg & segs & E). rewrite E in IH |- *.
  destruct (Ascii.eqb_spec c sep) as [->|_].
  - rewrite join_cons by done. by rewrite IH.
  - destruct segs as [|seg' segs]; simpl in *; [by rewrite IH|].
    by rewrite app_cons, IH.
Qed.

Lemma split_no_sep (sep : ascii) (s : string) :
  Forall (λ seg, has_char sep seg = false) (split sep s).
Proof.
  induction s as [|c s IH]; simpl; [by repeat constructor|].
  destruct (Ascii.eqb_spec c sep) as [->|Hne]; [by constructor|].
  destruct (split sep s) as [|seg segs]; simpl.
  - repeat constructor. simpl. apply orb_false_iff. split; [|done].
    by apply Ascii.eqb_neq.
  - inversion IH; subst. constructor; [|done]. simpl.
    apply orb_false_iff. split; [by apply Ascii.eqb_neq|done].
Qed.

Lemma split_app_sep (sep : ascii) (seg rest : string) :
  has_char sep seg = false →
  split sep (seg +:+ String sep rest) = seg :: split sep rest.
Proof.
  induction seg as [|c seg IH]; cbn [has_char]; intros H.
  - rewrite app_nil_l. cbn [split]. by rewrite Ascii.eqb_refl.
  - apply orb_false_iff in H as [Hc Hseg]. rewrite app_cons. cbn [split].
    by rewrite Hc, (IH Hseg).
Qed.

Lemma split_without_sep (sep : ascii) (seg : string) :
  has_char sep seg = false → split sep seg = [seg].
Proof.
  induction seg as [|c seg IH]; simpl; intros H; [done|].
  apply orb_false_iff in H as [Hc Hseg]. by rewrite Hc, (IH Hseg).
Qed.

(** A split with at least two segments comes from a string with the first
    segment, a separator, and the rest. *)
Lemma split_cons_cons (sep : ascii) (s seg : string) (segs : list string) :
  split sep s = seg :: segs → segs ≠ [] →
  ∃ rest, s = seg +:+ String sep rest ∧ split sep rest = segs.
Proof.
  revert seg segs. induction s as [|c s IH]; simpl; intros seg segs E Hne.
  - by simplify_eq.
  - destruct (Ascii.eqb_spec c sep) as [->|_].
    + simplify_eq. by exists s.
    + destruct (split sep s) as [|seg' segs'] eqn:Es; simplify_eq.
      destruct (IH seg' segs eq_refl Hne) as (rest & -> & Hrest).
      by exists rest.
Qed.

Lemma has_char_app (c : ascii) (s t : string) :
  has_char c (s +:+ t) = has_char c s || has_char c t.
Proof.
  induction s as [|c' s IH]; [reflexivity|].
  rewrite app_cons. cbn [has_char]. by rewrite IH, orb_assoc.
Qed.

Lemma partition_app (c : ascii) (before after : string) :
  has_char c before = false →
  partition c (before +:+ String c after) = (before, Some after).
Proof.
  induction before as [|c' s IH]; cbn [has_char]; intros H.
  - rewrite app_nil_l. cbn [partition]. by rewrite Ascii.eqb_refl.
  - apply orb_false_iff in H as [Hc Hs]. rewrite app_cons. cbn [partition].
    by rewrite Hc, (IH Hs).
Qed.

(** ** [join] *)


Lemma join_snoc (sep : string) (segs : list string) (seg : string) :
  segs ≠ [] → join sep (segs ++ [seg]) = join sep segs +:+ sep +:+ seg.
Proof.
  induction segs as [|s0 segs IH]; [done|]. intros _.
  destruct segs as [|s1 segs]; [reflexivity|].
  change ((s0 :: s1 :: segs) ++ [seg]) with (s0 :: ((s1 :: segs) ++ [seg])).
  rewrite join_cons by (by destruct segs). rewrite IH by done.
  rewrite (join_cons sep s0 (s1 :: segs)) by done. by rewrite !app_assoc.
Qed.

Lemma join_elem (sep : string) (segs : list string) (seg : string) :
  seg ∈ segs → ∃ pre post, join sep segs = pre +:+ seg +:+ post.
Proof.
  induction segs as [|s0 segs IH]; [by intros ?%elem_of_nil|].
  intros [->|Hin]%elem_of_cons.
  - destruct segs as [|s1 segs].
    + exists "", "". by rewrite app_nil_l, app_nil_r.
    + exists "", (sep +:+ join sep (s1 :: segs)). by rewrite join_cons.
  - destruct (IH Hin) as (pre & post & E). destruct segs as [|s1 segs].
    + by apply elem_of_nil in Hin.
    + exists (s0 +:+ sep +:+ pre), post.
      rewrite join_cons by done. rewrite E. by rewrite !app_assoc.
Qed.

(** Normal form of a concatenation: nested to the right, with the
    literal prefixes unfolded into characters. *)
Ltac string_normalize :=
  rewrite ?app_assoc; rewrite ?app_cons, ?app_nil_l, ?app_nil_r.

End PyFacts.

(* ================================================================== *)
(** * How the methods run *)
(* ================================================================== *)

Section ClickProperties.

Context {W : Type}.
Variable repr_other : pyval -> string.
Variable translate : exn -> exn.

Local Abbreviation check_payment := (Click.check_payment translate).
Local Abbreviation cancel_payment := (Click.cancel_payment translate).
Local Abbreviation create_payment := (Click.create_payment repr_other translate).
Local Abbreviation fmt := (Click.fmt repr_other).
Local Abbreviation click_params := (Click.click_params repr_other).
Local Abbreviation leading_params := (Click.leading_params repr_other).
Local Abbreviation optional_param := (Click.optional_param repr_other).
Local Abbreviation effective_description :=
  (Click.effective_description repr_other).

Implicit Types (st : @store W) (g : @ClickGateway W) (tid : string).
Implicit Types (id amount : pyval) (payload kwargs : gmap string pyval).

(** The format test computes the negation of [well_formed], and raises
    no [IndexError]. *)
Lemma bad_format_run tid st :
  bad_format (split "_" tid) st = (Return (negb (well_formed tid)), st).
Proof.
  unfold bad_format, well_formed.
  by destruct (split "_" tid) as [|s0 [|s1 [|s2 segs]]].
Qed.

Lemma well_formed_account tid :
  well_formed tid = true → split "_" tid !! 1%nat = Some (account_id_of tid).
Proof.
  unfold well_formed, account_id_of.
  by destruct (split "_" tid) as [|s0 [|s1 segs]].
Qed.

Lemma index_account tid st :
  well_formed tid = true →
  index (split "_" tid) 1 st = (Return (account_id_of tid), st).
Proof. intros Hwf. unfold index. by rewrite (well_formed_account _ Hwf). Qed.

(** The table lookup agrees with [canonical_status] on every hashable
    native status. *)
Lemma status_lookup (s : string) :
  default (PStr "unknown") (status_mapping !! s) = PStr (canonical_status (PStr s)).
Proof.
  unfold status_mapping, canonical_status.
  destruct (String.eqb_spec s "success") as [->|?]; [done|].
  rewrite lookup_insert_ne by done.
  destruct (String.eqb_spec s "processing") as [->|?]; [done|].
  rewrite lookup_insert_ne by done.
  destruct (String.eqb_spec s "failed") as [->|?]; [done|].
  rewrite lookup_insert_ne by done.
  destruct (String.eqb_spec s "cancelled") as [->|?]; [done|].
  by rewrite lookup_singleton_ne.
Qed.

Lemma status_mapping_get (native : pyval) :
  hashable native = true →
  dict_get_any status_mapping native (PStr "unknown")
  = Return (PStr (canonical_status native)).
Proof.
  destruct native; intros Hh; try discriminate; try reflexivity.
  cbn [dict_get_any]. by rewrite status_lookup.
Qed.

Lemma status_mapping_unhashable (native : pyval) :
  hashable native = false →
  dict_get_any status_mapping native (PStr "unknown")
  = Raise (TypeError ("unhashable type: '" +:+ type_name native +:+ "'")).
Proof. destruct native; intros Hh; try discriminate; reflexivity. Qed.

(** *** [check_payment] *)

Lemma check_payment_malformed tid st :
  well_formed tid = false →
  check_payment tid st = (Raise (translate (InvalidTransactionIdError tid)), st).
Proof.
  intros Hwf. unfold Click.check_payment, handle_exceptions, check_payment_body, bind.
  by rewrite bad_format_run, Hwf.
Qed.

Lemma check_payment_api_raises tid st e w :
  well_formed tid = true →
  api_check_payment (merchant_api (self st)) (account_id_of tid) (remote st)
    = (Raise e, w) →
  check_payment tid st
  = (Raise (translate e), after_call st w (CheckPayment (account_id_of tid))).
Proof.
  intros Hwf Hapi.
  unfold Click.check_payment, handle_exceptions, check_payment_body, bind.
  rewrite bad_format_run, Hwf. cbn [negb]. rewrite (index_account _ _ Hwf).
  unfold merchant_check_payment. by rewrite Hapi.
Qed.

Lemma check_payment_returns tid st payload w :
  well_formed tid = true →
  api_check_payment (merchant_api (self st)) (account_id_of tid) (remote st)
    = (Return payload, w) →
  hashable (dict_get payload "status") = true →
  check_payment tid st
  = (Return {[ "transaction_id" := PStr tid;
               "status" := PStr (canonical_status (dict_get payload "status"));
               "amount" := dict_get payload "amount";
               "paid_at" := dict_get payload "paid_at";
               "created_at" := dict_get payload "created_at";
               "raw_response" := PDict payload ]},
     after_call st w (CheckPayment (account_id_of tid))).
Proof.
  intros Hwf Hapi Hh.
  unfold Click.check_payment, handle_exceptions, check_payment_body, bind.
  rewrite bad_format_run, Hwf. cbn [negb]. rewrite (index_account _ _ Hwf).
  unfold merchant_check_payment. rewrite Hapi. unfold lift.
  by rewrite (status_mapping_get _ Hh).
Qed.

Lemma check_payment_unhashable tid st payload w :
  well_formed tid = true →
  api_check_payment (merchant_api (self st)) (account_id_of tid) (remote st)
    = (Return payload, w) →
  hashable (dict_get payload "status") = false →
  check_payment tid st
  = (Raise (translate (TypeError ("unhashable type: '"
                                  +:+ type_name (dict_get payload "status") +:+ "'"))),
     after_call st w (CheckPayment (account_id_of tid))).
Proof.
  intros Hwf Hapi Hh.
  unfold Click.check_payment, handle_exceptions, check_payment_body, bind.
  rewrite bad_format_run, Hwf. cbn [negb]. rewrite (index_account _ _ Hwf).
  unfold merchant_check_payment. rewrite Hapi. unfold lift.
  by rewrite (status_mapping_unhashable _ Hh).
Qed.

(** *** [cancel_payment] *)

Lemma cancel_payment_malformed tid reason st :
  well_formed tid = false →
  cancel_payment tid reason st
  = (Raise (translate (InvalidTransactionIdError tid)), st).
Proof.
  intros Hwf. unfold Click.cancel_payment, handle_exceptions, cancel_payment_body, bind.
  by rewrite bad_format_run, Hwf.
Qed.

Lemma cancel_payment_api_raises tid reason st e w :
  well_formed tid = true →
  api_cancel_payment (merchant_api (self st)) (account_id_of tid) reason (remote st)
    = (Raise e, w) →
  cancel_payment tid reason st
  = (Raise (translate e),
     after_call st w (CancelPayment (account_id_of tid) reason)).
Proof.
  intros Hwf Hapi.
  unfold Click.cancel_payment, handle_exceptions, cancel_payment_body, bind.
  rewrite bad_format_run, Hwf. cbn [negb]. rewrite (index_account _ _ Hwf).
  unfold merchant_cancel_payment. by rewrite Hapi.
Qed.

Lemma cancel_payment_returns tid reason st payload w :
  well_formed tid = true →
  api_cancel_payment (merchant_api (self st)) (account_id_of tid) reason (remote st)
    = (Return payload, w) →
  cancel_payment tid reason st
  = (Return {[ "transaction_id" := PStr tid;
               "status" := PStr "cancelled";
               "cancelled_at" := dict_get payload "cancelled_at";
               "raw_response" := PDict payload ]},
     after_call st w (CancelPayment (account_id_of tid) reason)).
Proof.
  intros Hwf Hapi.
  unfold Click.cancel_payment, handle_exceptions, cancel_payment_body, bind.
  rewrite bad_format_run, Hwf. cbn [negb]. rewrite (index_account _ _ Hwf).
  unfold merchant_cancel_payment. by rewrite Hapi.
Qed.

(** *** [create_payment] *)

(** The URL built by successive concatenation is the specification's
    template over [click_params]; the store is left as it was. *)
Lemma create_payment_run id amount kwargs st :
  create_payment id amount kwargs st
  = (Return (click_url (click_params (self st) id amount kwargs)), st).
Proof.
  unfold Click.create_payment, handle_exceptions, create_payment_body, bind, attr, ret.
  do 2 f_equal.
  unfold click_url, Click.click_params, Click.leading_params,
    Click.optional_param, Click.effective_description, click_base_url.
  destruct (truthy (dict_get kwargs "return_url")),
    (truthy (dict_get kwargs "callback_url")),
    (truthy (default _ (kwargs !! "description")));
    simpl; unfold render_param; simpl; PyFacts.string_normalize; reflexivity.
Qed.

Lemma click_url_snoc (params : list (string * string)) (name value : string) :
  params ≠ [] →
  click_url (params ++ [(name, value)])
  = click_url params +:+ "&" +:+ name +:+ "=" +:+ value.
Proof.
  intros Hne. unfold click_url. rewrite fmap_app. cbn [fmap list_fmap].
  rewrite PyFacts.join_snoc by (by destruct params).
  unfold render_param at 2. cbn [fst snd]. by rewrite !PyFacts.app_assoc.
Qed.

Lemma click_url_contains (params : list (string * string)) (p : string * string) :
  p ∈ params → contains (click_url params) (render_param p) = true.
Proof.
  intros Hin. apply PyFacts.contains_spec.
  destruct (PyFacts.join_elem "&" (render_param <$> params) (render_param p))
    as (pre & post & E); [by apply list_elem_of_fmap_2|].
  exists (click_base_url +:+ "?" +:+ pre), post.
  unfold click_url. rewrite E. by rewrite !PyFacts.app_assoc.
Qed.



Lemma leading_params_nonempty g id amount kwargs :
  leading_params g id amount kwargs ≠ [].
Proof. done. Qed.


(** The leading parameters do not look at the description. *)
Lemma leading_params_description g id amount kwargs (v : pyval) :
  leading_params g id amount (<["description" := v]> kwargs)
  = leading_params g id amount kwargs.
Proof.
  unfold Click.leading_params, dict_get. by rewrite !lookup_insert_ne.
Qed.

(** The description parameter is the last thing appended. *)
Lemma click_url_description g id amount kwargs :
  click_url (click_params g id amount kwargs)
  = click_url (leading_params g id amount kwargs)
    +:+ (if truthy (effective_description id kwargs)
         then "&merchant_user_id=" +:+ fmt (effective_description id kwargs)
         else "").
Proof.
  unfold Click.click_params, Click.optional_param at 1.
  destruct (truthy _).
  - by rewrite click_url_snoc by apply leading_params_nonempty.
  - by rewrite app_nil_r, PyFacts.app_nil_r.
Qed.

(* ================================================================== *)
(** * Properties of [create_payment] *)
(* ================================================================== *)

(** C1 (as amended). For a gateway constructed with [service_id=S] and
    [merchant_id=M], [create_payment(id=42, amount=150000,
    return_url="https://x/done")] returns the URL of the specification's
    example followed by [&merchant_user_id=Payment for account 42]: the
    default description is appended. The example's URL itself, with no
    further query parameter, is returned when the call also passes an
    empty description. *)
Theorem create_payment_example
    (TEST_NET PROD_NET : string)
    (ClickMerchantApi_new :
       HttpClient → string → option string → option string → ClickMerchantApi)
    (S M : string) (merchant_user_id secret_key : option string)
    (is_test_mode : bool) (w : W) (cs : list api_call) :
  let st :=
    {| self := ClickGateway_init TEST_NET PROD_NET ClickMerchantApi_new
                 S M merchant_user_id secret_key is_test_mode;
       remote := w; calls := cs |} in
  let kwargs : gmap string pyval := {[ "return_url" := PStr "https://x/done" ]} in
  create_payment (PInt 42) (PInt 150000) kwargs st
  = (Return ("https://my.click.uz/services/pay?service_id=" +:+ S
             +:+ "&merchant_id=" +:+ M
             +:+ "&amount=150000&transaction_param=42&return_url=https://x/done"
             +:+ "&merchant_user_id=Payment for account 42"), st)
  ∧ create_payment (PInt 42) (PInt 150000) (<["description" := PStr ""]> kwargs) st
    = (Return ("https://my.click.uz/services/pay?service_id=" +:+ S
               +:+ "&merchant_id=" +:+ M
               +:+ "&amount=150000&transaction_param=42&return_url=https://x/done"),
       st).
Proof.
  intros st kwargs. rewrite !create_payment_run. split; reflexivity.
Qed.


(** C5. For a fixed gateway, [create_payment] returns the same URL for
    the same [(id, amount, kwargs)] whatever the remote service and the
    request log are; the URL contains [transaction_param={id}] and
    [amount={amount}]; the call leaves the store as it was: no request is
    sent and the gateway object is not changed. *)
Theorem create_payment_deterministic g id amount kwargs
    (w1 w2 : W) (cs1 cs2 : list api_call) :
  let st1 := {| self := g; remote := w1; calls := cs1 |} in
  let st2 := {| self := g; remote := w2; calls := cs2 |} in
  ∃ url,
    create_payment id amount kwargs st1 = (Return url, st1)
    ∧ create_payment id amount kwargs st2 = (Return url, st2)
    ∧ contains url ("transaction_param=" +:+ fmt id) = true
    ∧ contains url ("amount=" +:+ fmt amount) = true.
Proof.
  intros st1 st2. exists (click_url (click_params g id amount kwargs)).
  split; [apply create_payment_run|]. split; [apply create_payment_run|].
  split.
  - apply (click_url_contains _ ("transaction_param", fmt id)).
    unfold Click.click_params, Click.leading_params. set_solver.
  - apply (click_url_contains _ ("amount", fmt amount)).
    unfold Click.click_params, Click.leading_params. set_solver.
Qed.

(** C10 (as amended). [create_payment] appends the [merchant_user_id]
    parameter, last, exactly when the effective description is truthy, and
    the parameter carries that description. A call that omits the
    [description] keyword gets a URL ending in
    [&merchant_user_id=Payment for account {id}]; a call with an explicit
    truthy description [d] gets one ending in [&merchant_user_id={d}]; the
    parameter is absent only when the caller passed a falsy description. *)
Theorem description_parameter id amount kwargs st :
  let d := effective_description id kwargs in
  ∃ url,
    create_payment id amount kwargs st = (Return url, st)
    ∧ url = click_url (leading_params (self st) id amount kwargs)
            +:+ (if truthy d then "&merchant_user_id=" +:+ fmt d else "")
    ∧ (∀ v, leading_params (self st) id amount (<["description" := v]> kwargs)
            = leading_params (self st) id amount kwargs)
    ∧ ("merchant_user_id" ∈ (click_params (self st) id amount kwargs).*1
       ↔ truthy d = true)
    ∧ (kwargs !! "description" = None →
       endswith url ("&merchant_user_id=Payment for account " +:+ fmt id) = true)
    ∧ (∀ v, kwargs !! "description" = Some v → truthy v = true →
       endswith url ("&merchant_user_id=" +:+ fmt v) = true)
    ∧ (truthy d = false →
       ∃ v, kwargs !! "description" = Some v ∧ truthy v = false).
Proof.
  intros d. eexists. split; [apply create_payment_run|].
  split; [apply click_url_description|].
  split; [intros v; apply leading_params_description|].
  rewrite click_url_description. fold d.
  assert (Hdefault : kwargs !! "description" = None →
            d = PStr ("Payment for account " +:+ fmt id)).
  { intros E. unfold d, Click.effective_description. by rewrite E. }
  assert (Hgiven : ∀ v, kwargs !! "description" = Some v → d = v).
  { intros v E. unfold d, Click.effective_description. by rewrite E. }
  split; [|split; [|split]].
  - unfold Click.click_params, Click.leading_params, Click.optional_param. fold d.
    destruct (truthy (dict_get kwargs "return_url")),
      (truthy (dict_get kwargs "callback_url")), (truthy d);
      cbn; rewrite ?elem_of_cons, elem_of_nil; intuition congruence.
  - intros E. rewrite (Hdefault E).
    change (truthy (PStr ("Payment for account " +:+ fmt id))) with true.
    exact (PyFacts.endswith_app _ ("&merchant_user_id=Payment for account " +:+ fmt id)).
  - intros v E Hv. rewrite (Hgiven v E), Hv. apply PyFacts.endswith_app.
  - intros Hd. destruct (kwargs !! "description") as [v|] eqn:E.
    + exists v. by rewrite <- (Hgiven v eq_refl).
    + by rewrite (Hdefault eq_refl) in Hd.
Qed.

(* ================================================================== *)
(** * Properties of [check_payment] and [cancel_payment] *)
(* ================================================================== *)

(** The ids the format test accepts are the strings
    [click_<account>_<rest>] whose account holds no underscore, and the
    account is the id the merchant API is asked about. *)
Lemma well_formed_shape tid :
  well_formed tid = true ↔
  ∃ account rest,
    has_char "_" account = false ∧ tid = "click_" +:+ account +:+ "_" +:+ rest.
Proof.
  split.
  - unfold well_formed. intros Hwf.
    destruct (split "_" tid) as [|s0 [|s1 [|s2 segs]]] eqn:E; try done.
    cbn in Hwf. apply String.eqb_eq in Hwf as ->.
    destruct (PyFacts.split_cons_cons _ _ _ _ E) as (r0 & -> & E0); [done|].
    destruct (PyFacts.split_cons_cons _ _ _ _ E0) as (r1 & -> & E1); [done|].
    exists s1, r1. split; [|reflexivity].
    pose proof (PyFacts.split_no_sep "_" ("click" +:+ String "_" (s1 +:+ String "_" r1)))
      as Hall.
    rewrite E in Hall. inversion Hall as [|? ? _ Hrest]; subst.
    by inversion Hrest.
  - intros (account & rest & Hacc & ->). unfold well_formed.
    change ("click_" +:+ account +:+ "_" +:+ rest)
      with ("click" +:+ String "_" (account +:+ String "_" rest)).
    rewrite PyFacts.split_app_sep by done.
    rewrite (PyFacts.split_app_sep _ account) by done.
    destruct (PyFacts.split_cons_inv "_" rest) as (seg & segs & ->). done.
Qed.

Lemma account_id_of_shape (account rest : string) :
  has_char "_" account = false →
  account_id_of ("click_" +:+ account +:+ "_" +:+ rest) = account.
Proof.
  intros Hacc. unfold account_id_of.
  change ("click_" +:+ account +:+ "_" +:+ rest)
    with ("click" +:+ String "_" (account +:+ String "_" rest)).
  rewrite PyFacts.split_app_sep by done.
  by rewrite (PyFacts.split_app_sep _ account) by done.
Qed.

(** The undecorated bodies on a malformed id. *)
Lemma check_payment_body_malformed tid st :
  well_formed tid = false →
  check_payment_body tid st
  = (Raise (ValueError ("Invalid transaction ID format: " +:+ tid)), st).
Proof.
  intros Hwf. unfold check_payment_body, bind.
  by rewrite bad_format_run, Hwf.
Qed.

Lemma cancel_payment_body_malformed tid reason st :
  well_formed tid = false →
  cancel_payment_body tid reason st
  = (Raise (ValueError ("Invalid transaction ID format: " +:+ tid)), st).
Proof.
  intros Hwf. unfold cancel_payment_body, bind.
  by rewrite bad_format_run, Hwf.
Qed.

(** C2 (as amended). On a transaction id that does not have at least
    three underscore-delimited segments with the first equal to
    ["click"], the bodies of [check_payment] and [cancel_payment] raise
    [ValueError("Invalid transaction ID format: ...")] and leave the store
    as it was: no request reaches the merchant API. The caller receives
    what the decorator makes of that [ValueError]: the [ValueError]
    itself when the decorator lets [ValueError] through. *)
Theorem malformed_transaction_id_rejected tid reason st :
  well_formed tid = false →
  (check_payment_body tid st
     = (Raise (ValueError ("Invalid transaction ID format: " +:+ tid)), st)
   ∧ cancel_payment_body tid reason st
     = (Raise (ValueError ("Invalid transaction ID format: " +:+ tid)), st))
  ∧ (check_payment tid st
       = (Raise (translate (ValueError ("Invalid transaction ID format: " +:+ tid))),
          st)
     ∧ cancel_payment tid reason st
       = (Raise (translate (ValueError ("Invalid transaction ID format: " +:+ tid))),
          st))
  ∧ ((∀ msg, translate (ValueError msg) = ValueError msg) →
     check_payment tid st
       = (Raise (ValueError ("Invalid transaction ID format: " +:+ tid)), st)
     ∧ cancel_payment tid reason st
       = (Raise (ValueError ("Invalid transaction ID format: " +:+ tid)), st)).
Proof.
  intros Hwf. split; [|split].
  - split.
    + by apply check_payment_body_malformed.
    + by apply cancel_payment_body_malformed.
  - split.
    + by apply check_payment_malformed.
    + by apply cancel_payment_malformed.
  - intros Hthrough.
    rewrite (check_payment_malformed _ _ Hwf), (cancel_payment_malformed _ _ _ Hwf).
    unfold InvalidTransactionIdError. by rewrite Hthrough.
Qed.

(** C3 (as amended). On a well-formed transaction id, whatever payload the merchant
    API returns, a native status that can be looked up (a string, a
    missing field, any other hashable value) never makes [check_payment]
    raise: the call returns, its ['status'] is the canonical status of
    the native one, and that is ['unknown'] for every native status
    outside the table, a missing one included. *)
Theorem unmapped_status_is_unknown tid st payload w :
  well_formed tid = true →
  api_check_payment (merchant_api (self st)) (account_id_of tid) (remote st)
    = (Return payload, w) →
  hashable (dict_get payload "status") = true →
  ∃ r,
    check_payment tid st
      = (Return r, after_call st w (CheckPayment (account_id_of tid)))
    ∧ r !! "status" = Some (PStr (canonical_status (dict_get payload "status")))
    ∧ ((∀ s, payload !! "status" = Some (PStr s) → s ∉ native_statuses) →
       r !! "status" = Some (PStr "unknown")).
Proof.
  intros Hwf Hapi Hh. eexists. split; [by apply check_payment_returns|].
  split; [by simplify_map_eq|].
  intros Hout. rewrite lookup_insert_ne, lookup_insert_eq by done. do 2 f_equal.
  unfold dict_get in *. destruct (payload !! "status") as [[]|] eqn:E; try done.
  specialize (Hout _ eq_refl). unfold canonical_status, native_statuses in *.
  simpl.
  repeat match goal with
         | |- context [String.eqb s ?k] =>
             destruct (String.eqb_spec s k) as [Hk|_];
             [exfalso; apply Hout; rewrite Hk; set_solver|]
         end.
  done.
Qed.

(** C6. On a well-formed transaction id such as ["click_42_150000"], when
    the merchant API reports a native status of the table, the result's
    ['status'] is its canonical counterpart: success to paid, processing
    to waiting, failed to failed, cancelled to cancelled. *)
Theorem native_status_is_mapped tid st payload w (native canonical : string) :
  (native, canonical) ∈ [("success", "paid"); ("processing", "waiting");
                         ("failed", "failed"); ("cancelled", "cancelled")] →
  well_formed tid = true →
  api_check_payment (merchant_api (self st)) (account_id_of tid) (remote st)
    = (Return payload, w) →
  payload !! "status" = Some (PStr native) →
  ∃ r,
    check_payment tid st
      = (Return r, after_call st w (CheckPayment (account_id_of tid)))
    ∧ r !! "status" = Some (PStr canonical).
Proof.
  intros Hin Hwf Hapi Hst.
  assert (Hget : dict_get payload "status" = PStr native)
    by (unfold dict_get; by rewrite Hst).
  eexists. split.
  - apply check_payment_returns; [done..|]. by rewrite Hget.
  - rewrite lookup_insert_ne, lookup_insert_eq by done. rewrite Hget.
    repeat (apply elem_of_cons in Hin as [[= -> ->]|Hin]; [done|]).
    by apply elem_of_nil in Hin.
Qed.

(** C7. [cancel_payment] parses the transaction id as [check_payment]
    does and fails as it does on a malformed one. On a well-formed id,
    when the merchant API returns a cancel payload, the result has the
    fields [transaction_id], [status], [cancelled_at], [raw_response]:
    ['status'] is ['cancelled'], ['cancelled_at'] is the payload's, and
    ['raw_response'] is the whole payload; an exception of the merchant
    API is passed on. *)
Theorem cancel_payment_result tid reason st :
  (well_formed tid = false →
   cancel_payment tid reason st = check_payment tid st)
  ∧ (well_formed tid = true →
     ∀ payload w,
       api_cancel_payment (merchant_api (self st)) (account_id_of tid) reason
         (remote st) = (Return payload, w) →
       ∃ r,
         cancel_payment tid reason st
           = (Return r, after_call st w (CancelPayment (account_id_of tid) reason))
         ∧ dom r = {[ "transaction_id"; "status"; "cancelled_at"; "raw_response" ]}
         ∧ r !! "transaction_id" = Some (PStr tid)
         ∧ r !! "status" = Some (PStr "cancelled")
         ∧ r !! "cancelled_at" = Some (dict_get payload "cancelled_at")
         ∧ r !! "raw_response" = Some (PDict payload))
  ∧ (well_formed tid = true →
     ∀ e w,
       api_cancel_payment (merchant_api (self st)) (account_id_of tid) reason
         (remote st) = (Raise e, w) →
       cancel_payment tid reason st
         = (Raise (translate e),
            after_call st w (CancelPayment (account_id_of tid) reason))).
Proof.
  split; [|split].
  - intros Hwf.
    by rewrite cancel_payment_malformed, check_payment_malformed.
  - intros Hwf payload w Hapi. eexists.
    split; [by apply cancel_payment_returns|].
    split; [|by simplify_map_eq].
    rewrite !dom_insert_L, dom_singleton_L. set_solver.
  - intros Hwf e w Hapi. by apply cancel_payment_api_raises.
Qed.

(** C8. On a well-formed transaction id, the value [check_payment]
    returns for a merchant payload has exactly the fields
    [transaction_id], [status], [amount], [paid_at], [created_at],
    [raw_response]: ['transaction_id'] is the argument, ['amount'],
    ['paid_at'] and ['created_at'] are the payload's, ['raw_response'] is
    the whole payload. It returns whenever the native status can be
    looked up. *)
Theorem check_payment_result tid st payload w :
  well_formed tid = true →
  api_check_payment (merchant_api (self st)) (account_id_of tid) (remote st)
    = (Return payload, w) →
  (hashable (dict_get payload "status") = true →
   ∃ r, check_payment tid st
        = (Return r, after_call st w (CheckPayment (account_id_of tid))))
  ∧ (∀ r st',
       check_payment tid st = (Return r, st') →
       dom r = {[ "transaction_id"; "status"; "amount"; "paid_at";
                  "created_at"; "raw_response" ]}
       ∧ r !! "transaction_id" = Some (PStr tid)
       ∧ r !! "amount" = Some (dict_get payload "amount")
       ∧ r !! "paid_at" = Some (dict_get payload "paid_at")
       ∧ r !! "created_at" = Some (dict_get payload "created_at")
       ∧ r !! "raw_response" = Some (PDict payload)).
Proof.
  intros Hwf Hapi. split.
  - intros Hh. eexists. by apply check_payment_returns.
  - intros r st' Hrun.
    destruct (hashable (dict_get payload "status")) eqn:Hh.
    + rewrite (check_payment_returns _ _ _ _ Hwf Hapi Hh) in Hrun.
      injection Hrun as <- _.
      split; [|by simplify_map_eq].
      rewrite !dom_insert_L, dom_singleton_L. set_solver.
    + by rewrite (check_payment_unhashable _ _ _ _ Hwf Hapi Hh) in Hrun.
Qed.

(** C9. Only the second segment of the transaction id reaches the
    merchant API. Two well-formed ids with the same second segment make
    [check_payment] (and [cancel_payment]) send the same single request
    and leave the same store, and their outcomes differ at most in the
    echoed ['transaction_id']; the other segments are not looked at. *)
Theorem only_account_id_is_used tid1 tid2 reason st :
  well_formed tid1 = true →
  well_formed tid2 = true →
  account_id_of tid1 = account_id_of tid2 →
  (snd (check_payment tid1 st) = snd (check_payment tid2 st)
   ∧ calls (snd (check_payment tid1 st))
     = calls st ++ [CheckPayment (account_id_of tid1)]
   ∧ same_but_transaction_id
       (fst (check_payment tid1 st)) (fst (check_payment tid2 st)))
  ∧ (snd (cancel_payment tid1 reason st) = snd (cancel_payment tid2 reason st)
     ∧ calls (snd (cancel_payment tid1 reason st))
       = calls st ++ [CancelPayment (account_id_of tid1) reason]
     ∧ same_but_transaction_id
         (fst (cancel_payment tid1 reason st))
         (fst (cancel_payment tid2 reason st))).
Proof.
  intros Hwf1 Hwf2 Hacc. split.
  - destruct (api_check_payment (merchant_api (self st)) (account_id_of tid1)
                (remote st)) as [[payload|e] w] eqn:Hapi.
    + destruct (hashable (dict_get payload "status")) eqn:Hh.
      * rewrite (check_payment_returns tid1 st payload w),
          (check_payment_returns tid2 st payload w) by (done || by rewrite <- Hacc).
        rewrite Hacc. cbn [fst snd calls after_call same_but_transaction_id].
        split_and!; [done..|]. by rewrite !delete_insert_eq.
      * rewrite (check_payment_unhashable tid1 st payload w),
          (check_payment_unhashable tid2 st payload w) by (done || by rewrite <- Hacc).
        rewrite Hacc. by cbn.
    + rewrite (check_payment_api_raises tid1 st e w),
        (check_payment_api_raises tid2 st e w) by (done || by rewrite <- Hacc).
      rewrite Hacc. by cbn.
  - destruct (api_cancel_payment (merchant_api (self st)) (account_id_of tid1)
                reason (remote st)) as [[payload|e] w] eqn:Hapi.
    + rewrite (cancel_payment_returns tid1 reason st payload w),
        (cancel_payment_returns tid2 reason st payload w)
        by (done || by rewrite <- Hacc).
      rewrite Hacc. cbn [fst snd calls after_call same_but_transaction_id].
        split_and!; [done..|]. by rewrite !delete_insert_eq.
    + rewrite (cancel_payment_api_raises tid1 reason st e w),
        (cancel_payment_api_raises tid2 reason st e w)
        by (done || by rewrite <- Hacc).
      rewrite Hacc. by cbn.
Qed.

End ClickProperties.

(* ================================================================== *)
(** * The properties at concrete calls *)
(* ================================================================== *)

Import Demo.

(** C1, as stated, fails: the call of the specification's example returns
    a URL that is not the one the example gives, since the default
    description follows. *)
Lemma create_payment_example_differs :
  fst (create_payment demo_repr demo_translate (PInt 42) (PInt 150000)
         {[ "return_url" := PStr "https://x/done" ]} demo_store)
  ≠ Return "https://my.click.uz/services/pay?service_id=S&merchant_id=M&amount=150000&transaction_param=42&return_url=https://x/done".
Proof. vm_compute. discriminate. Qed.

(** C10, as stated, fails: a call with an explicit truthy description,
    which is not an explicit falsy one, returns a URL that ends in that
    description and not in the default one. *)
Lemma explicit_description_replaces_default :
  truthy (PStr "Shoes") = true
  ∧ ∃ url,
      fst (create_payment demo_repr demo_translate (PInt 42) (PInt 150000)
             {[ "description" := PStr "Shoes" ]} demo_store) = Return url
      ∧ endswith url "&merchant_user_id=Shoes" = true
      ∧ endswith url "&merchant_user_id=Payment for account 42" = false.
Proof. split; [reflexivity|]. eexists. by vm_compute. Qed.


(** C10 (as amended) at a call that omits the description. *)
Lemma description_parameter_witness :
  ∃ url,
    create_payment demo_repr demo_translate (PInt 42) (PInt 150000) ∅ demo_store
      = (Return url, demo_store)
    ∧ endswith url "&merchant_user_id=Payment for account 42" = true.
Proof.
  destruct (description_parameter demo_repr demo_translate (PInt 42) (PInt 150000)
              ∅ demo_store) as (url & Hrun & _ & _ & _ & Hdefault & _).
  exists url. split; [exact Hrun|]. exact (Hdefault eq_refl).
Defined.

(** C2 (as amended) at the two malformed ids the specification names,
    under a decorator that lets [ValueError] through. *)
Lemma malformed_transaction_id_rejected_witness :
  (well_formed "bogus" = false
   ∧ check_payment demo_translate "bogus" demo_store
     = (Raise (ValueError "Invalid transaction ID format: bogus"), demo_store)
   ∧ cancel_payment demo_translate "bogus" None demo_store
     = (Raise (ValueError "Invalid transaction ID format: bogus"), demo_store))
  ∧ (well_formed "click_123" = false
     ∧ check_payment demo_translate "click_123" demo_store
       = (Raise (ValueError "Invalid transaction ID format: click_123"), demo_store)
     ∧ cancel_payment demo_translate "click_123" (Some "late") demo_store
       = (Raise (ValueError "Invalid transaction ID format: click_123"), demo_store)).
Proof.
  split; (split; [reflexivity|]).
  - exact (proj2 (proj2 (malformed_transaction_id_rejected demo_translate "bogus"
                           None demo_store eq_refl))
             (λ msg, eq_refl)).
  - exact (proj2 (proj2 (malformed_transaction_id_rejected demo_translate
                           "click_123" (Some "late") demo_store eq_refl))
             (λ msg, eq_refl)).
Defined.

(** C3 at a status outside the table and at a missing status. *)
Lemma unmapped_status_is_unknown_witness :
  (∃ r, check_payment demo_translate "click_7_100" demo_store
        = (Return r, after_call demo_store 1%nat (CheckPayment "7"))
        ∧ r !! "status" = Some (PStr "unknown"))
  ∧ (∃ r, check_payment demo_translate "click_8_100" demo_store
          = (Return r, after_call demo_store 1%nat (CheckPayment "8"))
          ∧ r !! "status" = Some (PStr "unknown")).
Proof.
  split.
  - destruct (unmapped_status_is_unknown demo_translate "click_7_100" demo_store
                {[ "status" := PStr "refunded" ]} 1%nat eq_refl eq_refl eq_refl)
      as (r & Hrun & _ & Hunknown).
    exists r. split; [exact Hrun|]. apply Hunknown.
    intros s [_ [= <-]]%lookup_singleton_Some.
    apply (bool_decide_unpack _). by vm_compute.
  - destruct (unmapped_status_is_unknown demo_translate "click_8_100" demo_store
                ∅ 1%nat eq_refl eq_refl eq_refl)
      as (r & Hrun & _ & Hunknown).
    exists r. split; [exact Hrun|]. apply Hunknown.
    intros s Hs. by rewrite lookup_empty in Hs.
Defined.

(** C6 at the example of the specification. *)
Lemma native_status_is_mapped_witness :
  ∃ r, check_payment demo_translate "click_42_150000" demo_store
       = (Return r, after_call demo_store 1%nat (CheckPayment "42"))
       ∧ r !! "status" = Some (PStr "paid").
Proof.
  apply (native_status_is_mapped demo_translate "click_42_150000" demo_store
           demo_payment 1%nat "success" "paid");
    [apply list_elem_of_here | reflexivity | reflexivity | reflexivity].
Defined.

(** C7 at a malformed id and at a cancellation that succeeds. *)
Lemma cancel_payment_result_witness :
  cancel_payment demo_translate "bogus" None demo_store
    = check_payment demo_translate "bogus" demo_store
  ∧ ∃ r, cancel_payment demo_translate "click_42_150000" (Some "late") demo_store
         = (Return r, after_call demo_store 1%nat (CancelPayment "42" (Some "late")))
         ∧ r !! "status" = Some (PStr "cancelled")
         ∧ r !! "cancelled_at" = Some (PStr "2024-01-02")
         ∧ r !! "raw_response" = Some (PDict demo_cancellation).
Proof.
  split.
  - exact (proj1 (cancel_payment_result demo_translate "bogus" None demo_store)
             eq_refl).
  - destruct (proj1 (proj2 (cancel_payment_result demo_translate "click_42_150000"
                              (Some "late") demo_store))
                eq_refl demo_cancellation 1%nat eq_refl)
      as (r & Hrun & _ & _ & Hstatus & Hat & Hraw).
    exists r. exact (conj Hrun (conj Hstatus (conj Hat Hraw))).
Defined.

(** C8 at a payment the merchant API reports as paid. *)
Lemma check_payment_result_witness :
  ∃ r, check_payment demo_translate "click_42_150000" demo_store
       = (Return r, after_call demo_store 1%nat (CheckPayment "42"))
       ∧ dom r = {[ "transaction_id"; "status"; "amount"; "paid_at";
                    "created_at"; "raw_response" ]}
       ∧ r !! "transaction_id" = Some (PStr "click_42_150000")
       ∧ r !! "amount" = Some (PInt 150000)
       ∧ r !! "raw_response" = Some (PDict demo_payment).
Proof.
  destruct (check_payment_result demo_translate "click_42_150000" demo_store
              demo_payment 1%nat eq_refl eq_refl) as [Hreturns Hfields].
  destruct (Hreturns eq_refl) as [r Hrun].
  destruct (Hfields r _ Hrun) as (Hdom & Htid & Hamount & _ & _ & Hraw).
  exists r. exact (conj Hrun (conj Hdom (conj Htid (conj Hamount Hraw)))).
Defined.

(** C9 at two ids for account 42 with different trailing segments. *)
Lemma only_account_id_is_used_witness :
  calls (snd (check_payment demo_translate "click_42_150000" demo_store))
    = [CheckPayment "42"]
  ∧ same_but_transaction_id
      (fst (check_payment demo_translate "click_42_150000" demo_store))
      (fst (check_payment demo_translate "click_42_1_extra" demo_store))
  ∧ same_but_transaction_id
      (fst (cancel_payment demo_translate "click_42_150000" None demo_store))
      (fst (cancel_payment demo_translate "click_42_1_extra" None demo_store)).
Proof.
  destruct (only_account_id_is_used demo_translate "click_42_150000"
              "click_42_1_extra" None demo_store eq_refl eq_refl eq_refl)
    as [(_ & Hcalls & Hcheck) (_ & _ & Hcancel)].
  exact (conj Hcalls (conj Hcheck Hcancel)).
Defined.

(* ================================================================== *)
(** * Further facts about strings *)
(* ================================================================== *)

Module PyMoreFacts.

Import PyFacts.

(** Splitting distributes over a separator. *)
Lemma split_app (sep : ascii) (a b : string) :
  split sep (a +:+ String sep b) = split sep a ++ split sep b.
Proof.
  induction a as [|c a IH].
  - rewrite app_nil_l. cbn [split]. by rewrite Ascii.eqb_refl.
  - rewrite app_cons. cbn [split]. rewrite IH.
    destruct (Ascii.eqb c sep); [done|].
    by destruct (split_cons_inv sep a) as (seg & segs & ->).
Qed.

(** The first segment is the whole string exactly when the string holds
    no separator. *)
Lemma head_split (sep : ascii) (s : string) :
  default "" (head (split sep s)) = s ↔ has_char sep s = false.
Proof.
  split.
  - intros E. pose proof (split_no_sep sep s) as Hall.
    destruct (split sep s) as [|seg segs]; cbn in E; subst.
    + reflexivity.
    + by inversion Hall.
  - intros H. by rewrite split_without_sep.
Qed.

Lemma partition_fst (c : ascii) (x tail : string) :
  has_char c x = false →
  tail = "" ∨ (∃ tail', tail = String c tail') →
  (partition c (x +:+ tail)).1 = x.
Proof.
  intros Hx [->|[tail' ->]].
  - rewrite app_nil_r. clear -Hx. induction x as [|c' x IH]; [done|].
    cbn [has_char] in Hx. apply orb_false_iff in Hx as [Hc Hx].
    cbn [partition]. rewrite Hc. specialize (IH Hx).
    destruct (partition c x). cbn in *. by rewrite IH.
  - by rewrite partition_app.
Qed.

Lemma join_app (sep : string) (l1 l2 : list string) :
  l1 ≠ [] → l2 ≠ [] →
  join sep (l1 ++ l2) = join sep l1 +:+ sep +:+ join sep l2.
Proof.
  induction l1 as [|s0 l1 IH]; [done|]. intros _ Hl2.
  destruct l1 as [|s1 l1].
  - cbn [app]. by rewrite join_cons.
  - change ((s0 :: s1 :: l1) ++ l2) with (s0 :: ((s1 :: l1) ++ l2)).
    rewrite join_cons by done. rewrite IH by done.
    rewrite (join_cons sep s0 (s1 :: l1)) by done. by rewrite !app_assoc.
Qed.

(** The decimal rendering of an integer holds digits and a sign only. *)
Lemma pretty_N_go_no_char (c : ascii) (x : N) (s : string) :
  (∀ d, pretty_N_char d ≠ c) →
  has_char c s = false → has_char c (pretty_N_go x s) = false.
Proof.
  intros Hc. revert s. induction (N.lt_wf_0 x) as [x _ IH]; intros s Hs.
  destruct (decide (x = 0)%N) as [->|Hne]; [by rewrite pretty_N_go_0|].
  rewrite pretty_N_go_step by lia. apply IH; [apply N.div_lt; lia|].
  cbn [has_char]. rewrite Hs, orb_false_r. apply Ascii.eqb_neq, Hc.
Qed.

Lemma pretty_Z_no_amp (z : Z) : has_char "&" (pretty z) = false.
Proof.
  assert (Hc : ∀ d, pretty_N_char d ≠ "&"%char)
    by (intros d; unfold pretty_N_char; by repeat case_match).
  assert (Hpos : ∀ p : positive, has_char "&" (pretty p) = false).
  { intros p. unfold pretty, pretty_positive, pretty, pretty_N.
    case_decide; [done|]. by apply pretty_N_go_no_char. }
  destruct z as [|p|p]; unfold pretty, pretty_Z; [done|apply Hpos|].
  rewrite has_char_app, Hpos. reflexivity.
Qed.

End PyMoreFacts.

(* ================================================================== *)
(** * Further properties of the gateway *)
(* ================================================================== *)

Section ClickFurther.

Context {W : Type}.
Variable repr_other : pyval -> string.
Variable translate : exn -> exn.

Local Abbreviation check_payment := (Click.check_payment translate).
Local Abbreviation cancel_payment := (Click.cancel_payment translate).
Local Abbreviation create_payment := (Click.create_payment repr_other translate).
Local Abbreviation fmt := (Click.fmt repr_other).
Local Abbreviation click_params := (Click.click_params repr_other).
Local Abbreviation leading_params := (Click.leading_params repr_other).

Implicit Types (st : @store W) (g : @ClickGateway W) (tid : string).
Implicit Types (id amount : pyval) (payload kwargs : gmap string pyval).

(** ** Helper lemmas *)

(** What a returned value of [check_payment] tells about the run. *)
Lemma check_payment_return_inv tid st r st' :
  check_payment tid st = (Return r, st') →
  well_formed tid = true
  ∧ ∃ payload w,
      api_check_payment (merchant_api (self st)) (account_id_of tid) (remote st)
        = (Return payload, w)
      ∧ hashable (dict_get payload "status") = true
      ∧ r = {[ "transaction_id" := PStr tid;
               "status" := PStr (canonical_status (dict_get payload "status"));
               "amount" := dict_get payload "amount";
               "paid_at" := dict_get payload "paid_at";
               "created_at" := dict_get payload "created_at";
               "raw_response" := PDict payload ]}
      ∧ st' = after_call st w (CheckPayment (account_id_of tid)).
Proof.
  intros Hrun. destruct (well_formed tid) eqn:Hwf.
  - split; [done|].
    destruct (api_check_payment (merchant_api (self st)) (account_id_of tid)
                (remote st)) as [[payload|e] w] eqn:Hapi.
    + destruct (hashable (dict_get payload "status")) eqn:Hh.
      * rewrite (check_payment_returns translate _ _ _ _ Hwf Hapi Hh) in Hrun.
        injection Hrun as <- <-. by exists payload, w.
      * by rewrite (check_payment_unhashable translate _ _ _ _ Hwf Hapi Hh) in Hrun.
    + by rewrite (check_payment_api_raises translate _ _ _ _ Hwf Hapi) in Hrun.
  - by rewrite (check_payment_malformed translate _ _ Hwf) in Hrun.
Qed.

Lemma cancel_payment_return_inv tid reason st r st' :
  cancel_payment tid reason st = (Return r, st') →
  well_formed tid = true
  ∧ ∃ payload w,
      api_cancel_payment (merchant_api (self st)) (account_id_of tid) reason
        (remote st) = (Return payload, w).
Proof.
  intros Hrun. destruct (well_formed tid) eqn:Hwf.
  - split; [done|].
    destruct (api_cancel_payment (merchant_api (self st)) (account_id_of tid)
                reason (remote st)) as [[payload|e] w] eqn:Hapi.
    + by exists payload, w.
    + by rewrite (cancel_payment_api_raises translate _ _ _ _ _ Hwf Hapi) in Hrun.
  - by rewrite (cancel_payment_malformed translate _ _ _ Hwf) in Hrun.
Qed.

(** The canonical statuses of the table come from their native
    counterparts only. *)
Lemma canonical_status_inv (native : pyval) (n c : string) :
  (n, c) ∈ [("success", "paid"); ("processing", "waiting");
            ("failed", "failed"); ("cancelled", "cancelled")] →
  canonical_status native = c ↔ native = PStr n.
Proof.
  intros Hin.
  repeat (apply elem_of_cons in Hin as [[= -> ->]|Hin]);
    [..|by apply elem_of_nil in Hin];
    (split; [|by intros ->]);
    destruct native as [| | | |s| |]; try done; cbn [canonical_status];
    repeat match goal with
           | |- context [String.eqb s ?k] =>
               destruct (String.eqb_spec s k) as [->|_]; [done|]
           end; done.
Qed.

Lemma canonical_status_closed (native : pyval) :
  canonical_status native ∈ ["paid"; "waiting"; "failed"; "cancelled"; "unknown"].
Proof.
  destruct native as [| | | |s| |]; cbn [canonical_status];
    repeat match goal with
           | |- context [String.eqb s ?k] => destruct (String.eqb s k)
           end;
    apply (bool_decide_unpack _); by vm_compute.
Qed.

(** ** [check_payment] and [cancel_payment] *)

(** X1. [check_payment] and [cancel_payment] go on to the merchant API on
    exactly the ids of the shape [click_<account>_<rest>] whose account
    holds no underscore ([rest] is free: empty, not a number, with more
    underscores), and the request is for that account. On every other id
    their bodies raise the invalid-id [ValueError], which the caller
    receives as the decorator translates it, and nothing is sent. *)
Theorem accepted_transaction_ids tid reason st :
  (∃ account rest,
     has_char "_" account = false
     ∧ tid = "click_" +:+ account +:+ "_" +:+ rest
     ∧ calls (snd (check_payment tid st)) = calls st ++ [CheckPayment account]
     ∧ calls (snd (cancel_payment tid reason st))
       = calls st ++ [CancelPayment account reason])
  ∨ ((∀ account rest,
        has_char "_" account = false →
        tid ≠ "click_" +:+ account +:+ "_" +:+ rest)
     ∧ check_payment_body tid st
       = (Raise (ValueError ("Invalid transaction ID format: " +:+ tid)), st)
     ∧ cancel_payment_body tid reason st
       = (Raise (ValueError ("Invalid transaction ID format: " +:+ tid)), st)
     ∧ check_payment tid st
       = (Raise (translate (ValueError ("Invalid transaction ID format: " +:+ tid))),
          st)
     ∧ cancel_payment tid reason st
       = (Raise (translate (ValueError ("Invalid transaction ID format: " +:+ tid))),
          st)).
Proof.
  destruct (well_formed tid) eqn:Hwf.
  - left. pose proof Hwf as (account & rest & Hacc & Htid)%well_formed_shape.
    assert (Hid : account_id_of tid = account)
      by (rewrite Htid; by apply account_id_of_shape).
    exists account, rest. split; [done|]. split; [done|].
    rewrite <- Hid. split.
    + destruct (api_check_payment (merchant_api (self st)) (account_id_of tid)
                  (remote st)) as [[payload|e] w] eqn:Hapi.
      * destruct (hashable (dict_get payload "status")) eqn:Hh.
        -- by rewrite (check_payment_returns translate _ _ _ _ Hwf Hapi Hh).
        -- by rewrite (check_payment_unhashable translate _ _ _ _ Hwf Hapi Hh).
      * by rewrite (check_payment_api_raises translate _ _ _ _ Hwf Hapi).
    + destruct (api_cancel_payment (merchant_api (self st)) (account_id_of tid)
                  reason (remote st)) as [[payload|e] w] eqn:Hapi.
      * by rewrite (cancel_payment_returns translate _ _ _ _ _ Hwf Hapi).
      * by rewrite (cancel_payment_api_raises translate _ _ _ _ _ Hwf Hapi).
  - right. split_and!.
    + intros account rest Hacc ->.
      assert (well_formed ("click_" +:+ account +:+ "_" +:+ rest) = true)
        by (apply well_formed_shape; eauto).
      congruence.
    + by apply check_payment_body_malformed.
    + by apply cancel_payment_body_malformed.
    + by apply check_payment_malformed.
    + by apply cancel_payment_malformed.
Qed.

(** X2. An id written as [click_{account}_{amount}] is always accepted,
    whatever the two texts are, and the merchant API is asked about the
    text of the account before its first underscore: the account itself
    exactly when it holds no underscore. *)
Theorem transaction_id_round_trip (account amount_text : string) reason st :
  let tid := "click_" +:+ account +:+ "_" +:+ amount_text in
  let asked := default "" (head (split "_" account)) in
  calls (snd (check_payment tid st)) = calls st ++ [CheckPayment asked]
  ∧ calls (snd (cancel_payment tid reason st))
    = calls st ++ [CancelPayment asked reason]
  ∧ (asked = account ↔ has_char "_" account = false).
Proof.
  intros tid asked.
  assert (Hsplit : split "_" tid
                   = "click" :: split "_" account ++ split "_" amount_text).
  { unfold tid.
    change ("click_" +:+ account +:+ "_" +:+ amount_text)
      with ("click" +:+ String "_" (account +:+ String "_" amount_text)).
    rewrite PyMoreFacts.split_app. by rewrite PyMoreFacts.split_app. }
  destruct (PyFacts.split_cons_inv "_" account) as (seg & segs & Hacc).
  destruct (PyFacts.split_cons_inv "_" amount_text) as (seg' & segs' & Hamt).
  assert (Hwf : well_formed tid = true).
  { unfold well_formed. rewrite Hsplit, Hacc, Hamt.
    apply andb_true_iff. split; [|done].
    apply Nat.leb_le. cbn [length app]. rewrite length_app. cbn [length]. lia. }
  assert (Hid : account_id_of tid = asked).
  { unfold account_id_of, asked. by rewrite Hsplit, Hacc. }
  rewrite <- Hid. split; [|split].
  - destruct (api_check_payment (merchant_api (self st)) (account_id_of tid)
                (remote st)) as [[payload|e] w] eqn:Hapi.
    + destruct (hashable (dict_get payload "status")) eqn:Hh.
      * by rewrite (check_payment_returns translate _ _ _ _ Hwf Hapi Hh).
      * by rewrite (check_payment_unhashable translate _ _ _ _ Hwf Hapi Hh).
    + by rewrite (check_payment_api_raises translate _ _ _ _ Hwf Hapi).
  - destruct (api_cancel_payment (merchant_api (self st)) (account_id_of tid)
                reason (remote st)) as [[payload|e] w] eqn:Hapi.
    + by rewrite (cancel_payment_returns translate _ _ _ _ _ Hwf Hapi).
    + by rewrite (cancel_payment_api_raises translate _ _ _ _ _ Hwf Hapi).
  - rewrite Hid. apply PyMoreFacts.head_split.
Qed.

(** X3. What [check_payment] and [cancel_payment] do to the store does
    not depend on what the merchant API answers: on a well-formed id,
    one request for the second segment and the remote state it leaves,
    even when the call then raises; on a malformed id, nothing. The
    gateway object is never changed. *)
Theorem store_after_check_and_cancel tid reason st :
  snd (check_payment tid st)
  = (if well_formed tid
     then after_call st
            (snd (api_check_payment (merchant_api (self st))
                    (account_id_of tid) (remote st)))
            (CheckPayment (account_id_of tid))
     else st)
  ∧ snd (cancel_payment tid reason st)
    = (if well_formed tid
       then after_call st
              (snd (api_cancel_payment (merchant_api (self st))
                      (account_id_of tid) reason (remote st)))
              (CancelPayment (account_id_of tid) reason)
       else st)
  ∧ self (snd (check_payment tid st)) = self st
  ∧ self (snd (cancel_payment tid reason st)) = self st.
Proof.
  destruct (well_formed tid) eqn:Hwf.
  - destruct (api_check_payment (merchant_api (self st)) (account_id_of tid)
                (remote st)) as [[payload|e] w] eqn:Hcheck;
    destruct (api_cancel_payment (merchant_api (self st)) (account_id_of tid)
                reason (remote st)) as [[payload'|e'] w'] eqn:Hcancel;
    rewrite ?(cancel_payment_returns translate _ _ _ _ _ Hwf Hcancel),
      ?(cancel_payment_api_raises translate _ _ _ _ _ Hwf Hcancel),
      ?(check_payment_api_raises translate _ _ _ _ Hwf Hcheck);
    try (destruct (hashable (dict_get payload "status")) eqn:Hh;
         rewrite ?(check_payment_returns translate _ _ _ _ Hwf Hcheck Hh),
           ?(check_payment_unhashable translate _ _ _ _ Hwf Hcheck Hh));
    done.
  - by rewrite (check_payment_malformed translate _ _ Hwf),
      (cancel_payment_malformed translate _ _ _ Hwf).
Qed.

(** X4. [check_payment] returns a value exactly when the id is
    well-formed, the merchant API returns a payload and the payload's
    status can be looked up in the table (it is no list and no dict);
    [cancel_payment] returns exactly when the id is well-formed and the
    merchant API returns a payload, whatever the payload holds. *)
Theorem returns_exactly_when tid reason st :
  ((∃ r st', check_payment tid st = (Return r, st'))
   ↔ well_formed tid = true
     ∧ ∃ payload w,
         api_check_payment (merchant_api (self st)) (account_id_of tid)
           (remote st) = (Return payload, w)
         ∧ hashable (dict_get payload "status") = true)
  ∧ ((∃ r st', cancel_payment tid reason st = (Return r, st'))
     ↔ well_formed tid = true
       ∧ ∃ payload w,
           api_cancel_payment (merchant_api (self st)) (account_id_of tid)
             reason (remote st) = (Return payload, w)).
Proof.
  split; split.
  - intros (r & st' & Hrun).
    destruct (check_payment_return_inv _ _ _ _ Hrun)
      as (Hwf & payload & w & Hapi & Hh & _).
    split; [done|]. by exists payload, w.
  - intros (Hwf & payload & w & Hapi & Hh).
    rewrite (check_payment_returns translate _ _ _ _ Hwf Hapi Hh). by eexists _, _.
  - intros (r & st' & Hrun). by eapply cancel_payment_return_inv.
  - intros (Hwf & payload & w & Hapi).
    rewrite (cancel_payment_returns translate _ _ _ _ _ Hwf Hapi). by eexists _, _.
Qed.

(** X5. When the merchant API's payload carries a status that is a list
    or a dict, [check_payment] raises a [TypeError] (as the decorator
    passes it on) instead of reporting ['unknown'], and the request has
    been sent by then. *)
Theorem unhashable_status_raises tid st payload w :
  well_formed tid = true →
  api_check_payment (merchant_api (self st)) (account_id_of tid) (remote st)
    = (Return payload, w) →
  hashable (dict_get payload "status") = false →
  ∃ msg,
    check_payment tid st
    = (Raise (translate (TypeError msg)),
       after_call st w (CheckPayment (account_id_of tid))).
Proof.
  intros Hwf Hapi Hh. eexists. by apply check_payment_unhashable.
Qed.

(** X6. The status [check_payment] reports is one of [paid], [waiting],
    [failed], [cancelled], [unknown], and each of the first four is
    reported only for its own native status, compared as an exact string:
    [paid] exactly when the payload's status is the string [success], and
    so on. *)
Theorem reported_status_sound tid st r st' :
  check_payment tid st = (Return r, st') →
  ∃ payload c,
    r !! "raw_response" = Some (PDict payload)
    ∧ r !! "status" = Some (PStr c)
    ∧ c ∈ ["paid"; "waiting"; "failed"; "cancelled"; "unknown"]
    ∧ (c = "paid" ↔ payload !! "status" = Some (PStr "success"))
    ∧ (c = "waiting" ↔ payload !! "status" = Some (PStr "processing"))
    ∧ (c = "failed" ↔ payload !! "status" = Some (PStr "failed"))
    ∧ (c = "cancelled" ↔ payload !! "status" = Some (PStr "cancelled")).
Proof.
  intros Hrun.
  destruct (check_payment_return_inv _ _ _ _ Hrun)
    as (_ & payload & w & _ & _ & -> & _).
  exists payload, (canonical_status (dict_get payload "status")).
  split; [by simplify_map_eq|]. split; [by simplify_map_eq|].
  split; [apply canonical_status_closed|].
  assert (Hget : ∀ n, dict_get payload "status" = PStr n
                      ↔ payload !! "status" = Some (PStr n)).
  { intros n. unfold dict_get.
    destruct (payload !! "status") as [v|]; cbn; [|done].
    split; [by intros ->|by intros [= ->]]. }
  split_and!; rewrite <- Hget; apply canonical_status_inv;
    apply (bool_decide_unpack _); by vm_compute.
Qed.

(** ** [create_payment] *)

(** The URL, cut after the order id: what follows is empty or one more
    parameter. *)
Lemma payment_url_shape g id amount kwargs :
  ∃ tail,
    (tail = "" ∨ ∃ tail', tail = String "&" tail')
    ∧ click_url (click_params g id amount kwargs)
      = ("https://my.click.uz/services/pay?service_id=" +:+ service_id g
         +:+ "&merchant_id=" +:+ merchant_id g +:+ "&amount=")
        +:+ fmt amount +:+ "&transaction_param=" +:+ fmt id +:+ tail.
Proof.
  unfold click_url, Click.click_params, Click.leading_params,
    Click.optional_param, click_base_url.
  destruct (truthy (dict_get kwargs "return_url")),
    (truthy (dict_get kwargs "callback_url")),
    (truthy (effective_description repr_other id kwargs));
    [eexists (String "&" _); split; [right; by eexists|] ..
    |exists ""; split; [by left|]];
    simpl; unfold render_param; simpl; PyFacts.string_normalize; reflexivity.
Qed.

(** Two URLs that are equal carry the same amount and id texts, as long
    as these texts hold no [&]. *)
Lemma payment_url_texts g id1 amount1 kwargs1 id2 amount2 kwargs2 :
  has_char "&" (fmt amount1) = false → has_char "&" (fmt amount2) = false →
  has_char "&" (fmt id1) = false → has_char "&" (fmt id2) = false →
  click_url (click_params g id1 amount1 kwargs1)
    = click_url (click_params g id2 amount2 kwargs2) →
  fmt amount1 = fmt amount2 ∧ fmt id1 = fmt id2.
Proof.
  intros Ha1 Ha2 Hi1 Hi2 Heq.
  destruct (payment_url_shape g id1 amount1 kwargs1) as (t1 & Ht1 & E1).
  destruct (payment_url_shape g id2 amount2 kwargs2) as (t2 & Ht2 & E2).
  rewrite E1, E2 in Heq. apply (inj (String.app _)) in Heq.
  pose proof (f_equal (partition "&") Heq) as Hpart.
  change ("&transaction_param=" +:+ fmt id1 +:+ t1)
    with (String "&" ("transaction_param=" +:+ fmt id1 +:+ t1)) in Hpart.
  change ("&transaction_param=" +:+ fmt id2 +:+ t2)
    with (String "&" ("transaction_param=" +:+ fmt id2 +:+ t2)) in Hpart.
  rewrite !PyFacts.partition_app in Hpart by done.
  injection Hpart as Hamount Hrest. split; [done|].
  apply (inj (String.app _)) in Hrest.
  rewrite <- (PyMoreFacts.partition_fst "&" (fmt id1) t1 Hi1 Ht1),
    <- (PyMoreFacts.partition_fst "&" (fmt id2) t2 Hi2 Ht2).
  by rewrite Hrest.
Qed.

Lemma click_params_other_key g id amount kwargs (key : string) (v : pyval) :
  key ≠ "description" → key ≠ "return_url" → key ≠ "callback_url" →
  click_params g id amount (<[key := v]> kwargs)
  = click_params g id amount kwargs.
Proof.
  intros Hd Hr Hc.
  unfold Click.click_params, Click.leading_params, Click.effective_description,
    dict_get.
  by rewrite !lookup_insert_ne.
Qed.

(** X7. The URL depends on the gateway through [service_id] and
    [merchant_id] only: gateways constructed with the same two ids return
    the same URL whatever their secret key, merchant user id, test-mode
    flag and networks are. The secret never reaches the URL, and test
    mode does not change where the URL points. *)
Theorem create_payment_ignores_credentials
    (TEST1 PROD1 TEST2 PROD2 : string)
    (new1 new2 :
       HttpClient → string → option string → option string → ClickMerchantApi)
    (S M : string) (user1 user2 key1 key2 : option string) (test1 test2 : bool)
    (w1 w2 : W) (cs1 cs2 : list api_call) id amount kwargs :
  fst (create_payment id amount kwargs
         {| self := ClickGateway_init TEST1 PROD1 new1 S M user1 key1 test1;
            remote := w1; calls := cs1 |})
  = fst (create_payment id amount kwargs
           {| self := ClickGateway_init TEST2 PROD2 new2 S M user2 key2 test2;
              remote := w2; calls := cs2 |}).
Proof. by rewrite !create_payment_run. Qed.

(** X8. Keywords other than [description], [return_url] and
    [callback_url] have no effect on the URL: the [language], [phone] and
    [email] of the docstring, like any other keyword, are ignored. *)
Theorem create_payment_ignores_other_keywords id amount kwargs st
    (key : string) (v : pyval) :
  key ≠ "description" → key ≠ "return_url" → key ≠ "callback_url" →
  create_payment id amount (<[key := v]> kwargs) st
  = create_payment id amount kwargs st.
Proof.
  intros Hd Hr Hc. rewrite !create_payment_run.
  by rewrite click_params_other_key.
Qed.

(** X9. A falsy [return_url] or [callback_url] ([None], an empty string,
    zero, an empty container) is the same as leaving the keyword out. *)
Theorem falsy_url_is_omitted id amount kwargs st (key : string) (v : pyval) :
  key = "return_url" ∨ key = "callback_url" →
  truthy v = false →
  create_payment id amount (<[key := v]> kwargs) st
  = create_payment id amount (delete key kwargs) st.
Proof.
  intros Hkey Hv. rewrite !create_payment_run. do 2 f_equal.
  unfold Click.click_params, Click.leading_params, Click.optional_param,
    Click.effective_description, dict_get.
  destruct Hkey as [-> | ->];
    rewrite ?lookup_insert_eq, ?lookup_delete_eq;
    rewrite !lookup_insert_ne, !lookup_delete_ne by done;
    simpl; by rewrite Hv.
Qed.

(** X10. For integer ids and amounts, different orders get different
    URLs: two calls on the same gateway whose id or amount differ never
    return the same URL, whatever keywords each one passes. *)
Theorem payment_url_injective (id1 id2 amount1 amount2 : Z) kwargs1 kwargs2 st :
  (id1, amount1) ≠ (id2, amount2) →
  fst (create_payment (PInt id1) (PInt amount1) kwargs1 st)
  ≠ fst (create_payment (PInt id2) (PInt amount2) kwargs2 st).
Proof.
  intros Hne. rewrite !create_payment_run. cbn [fst]. intros Heq.
  assert (Hreturn : ∀ u1 u2 : string, Return u1 = Return u2 → u1 = u2)
    by (by intros u1 u2 [= ->]).
  apply Hreturn in Heq.
  apply payment_url_texts in Heq as [Hamount Hid];
    try apply PyMoreFacts.pretty_Z_no_amp.
  cbn [Click.fmt] in *. apply (inj pretty) in Hamount, Hid. congruence.
Qed.

End ClickFurther.

(* ================================================================== *)
(** * The further properties at concrete calls *)
(* ================================================================== *)

Import DemoOdd.

(** X5 at a merchant API whose status field is a list. *)
Lemma unhashable_status_raises_witness :
  ∃ msg,
    check_payment demo_translate "click_1_2" odd_store
    = (Raise (demo_translate (TypeError msg)),
       after_call odd_store 1%nat (CheckPayment "1")).
Proof.
  exact (unhashable_status_raises demo_translate "click_1_2" odd_store
           odd_payment 1%nat eq_refl eq_refl eq_refl).
Defined.

(** X6 at a payment the merchant API reports as [success]. *)
Lemma reported_status_sound_witness :
  ∃ payload c,
    c ∈ ["paid"; "waiting"; "failed"; "cancelled"; "unknown"]
    ∧ (c = "paid" ↔ payload !! "status" = Some (PStr "success"))
    ∧ payload = demo_payment.
Proof.
  destruct (reported_status_sound demo_translate "click_42_150000" demo_store
              _ _ eq_refl)
    as (payload & c & Hraw & _ & Hin & Hpaid & _).
  exists payload, c. split; [exact Hin|]. split; [exact Hpaid|].
  by injection Hraw as <-.
Defined.

(** X8 at the [language] keyword of the docstring. *)
Lemma create_payment_ignores_other_keywords_witness :
  create_payment demo_repr demo_translate (PInt 42) (PInt 150000)
    (<["language" := PStr "uz"]> ∅) demo_store
  = create_payment demo_repr demo_translate (PInt 42) (PInt 150000) ∅ demo_store.
Proof.
  apply create_payment_ignores_other_keywords; discriminate.
Defined.

(** X9 at a return URL of [None]. *)
Lemma falsy_url_is_omitted_witness :
  create_payment demo_repr demo_translate (PInt 42) (PInt 150000)
    (<["return_url" := PNone]> ∅) demo_store
  = create_payment demo_repr demo_translate (PInt 42) (PInt 150000)
      (delete "return_url" ∅) demo_store.
Proof.
  apply falsy_url_is_omitted; [by left|reflexivity].
Defined.

(** X10 at two orders with the same amount. *)
Lemma payment_url_injective_witness :
  fst (create_payment demo_repr demo_translate (PInt 42) (PInt 150000) ∅
         demo_store)
  ≠ fst (create_payment demo_repr demo_translate (PInt 43) (PInt 150000)
           {[ "description" := PStr "Payment for account 42" ]} demo_store).
Proof.
  apply payment_url_injective. discriminate.
Defined.

(* ================================================================== *)
(** * Where the claims, as stated, fail *)
(* ================================================================== *)

(** C2, as stated, fails: under a decorator that wraps built-in
    exceptions, the caller of [check_payment] and [cancel_payment] on a
    malformed id receives an [InternalServiceError], which is no
    [ValueError]. *)
Lemma wrapped_error_is_no_value_error :
  well_formed "bogus" = false
  ∧ check_payment wrapping_translate "bogus" demo_store
    = (Raise (Raised "InternalServiceError" "Invalid transaction ID format: bogus"),
       demo_store)
  ∧ cancel_payment wrapping_translate "bogus" None demo_store
    = (Raise (Raised "InternalServiceError" "Invalid transaction ID format: bogus"),
       demo_store)
  ∧ ¬ (∃ msg, fst (check_payment wrapping_translate "bogus" demo_store)
              = Raise (ValueError msg)).
Proof.
  split; [reflexivity|]. split; [reflexivity|]. split; [reflexivity|].
  intros [msg Hmsg]. vm_compute in Hmsg. discriminate.
Qed.

(** C3, as stated, fails: on a well-formed id, a payload whose status is
    a list makes [check_payment] raise because of the status value; no
    result with status ['unknown'] is returned. *)
Lemma list_status_makes_check_payment_raise :
  well_formed "click_1_2" = true
  ∧ api_check_payment (merchant_api (self odd_store)) "1" (remote odd_store)
    = (Return odd_payment, 1%nat)
  ∧ odd_payment !! "status" = Some (PList [PStr "success"])
  ∧ fst (check_payment demo_translate "click_1_2" odd_store)
    = Raise (demo_translate (TypeError "unhashable type: 'list'"))
  ∧ ¬ (∃ r st', check_payment demo_translate "click_1_2" odd_store
                = (Return r, st')).
Proof.
  split; [reflexivity|]. split; [reflexivity|]. split; [reflexivity|].
  split; [reflexivity|].
  intros (r & st' & Hrun). vm_compute in Hrun. discriminate.
Qed.

